(** * The tick driver of screeps-rs: [src/javascript/main.js]

    A shallow embedding of the bootstrap shim that the game host calls once
    per tick, and the properties of its observable contract.

    The driver is stateful glue: two module-level variables, a clean-up loop
    over a host dictionary, a [try]/[catch] around the agent module's three
    capabilities.  It is embedded as a program in a small state monad whose
    results are JavaScript completions (normal, early [return], [throw]). *)

From Stdlib Require Import ZArith String List Bool Lia.
From stdpp Require Import gmap strings list fin_maps.
Import ListNotations.

Local Open Scope string_scope.
Local Open Scope list_scope.

(** ** JavaScript values, as far as the driver looks at them

    The only values the driver inspects are the ones it catches.  Of a caught
    value it uses three things: whether a property can be read from it at all
    ([undefined] and [null] have none), its conversion to a string (inside
    [join]), and its [stack] property.  A string and a symbol have no
    [stack]; a symbol cannot be converted.  An object is represented by what
    these two operations do on it, and each of them may throw: [text] is the
    string its conversion yields, or the value the conversion throws (an
    object without [toString] and [valueOf], a [toString] that throws);
    [stack] is the value of the property ([JUndefined] when it has none), or
    the value its getter throws. *)

#[warnings="-register-all"] Inductive JsVal : Type :=
| JUndefined
| JNull
| JStr (s : string)
| JSymbol (description : string)
| JObj (text : string + JsVal) (stack : JsVal + JsVal).

(** A [TypeError] raised by the engine.  The wording of the message is the
    engine's; only the error's being thrown matters. *)
Definition TypeError (message : string) : JsVal :=
  JObj (inl ("TypeError: " +:+ message))
       (inl (JStr ("TypeError: " +:+ message))).

(** The abstract operation [ToString]: the text of [v], or what the
    conversion throws. *)
Definition ToString (v : JsVal) : string + JsVal :=
  match v with
  | JUndefined => inl "undefined"
  | JNull => inl "null"
  | JStr s => inl s
  | JSymbol _ => inr (TypeError "Cannot convert a Symbol value to a string")
  | JObj text _ => text
  end.

(** One element of [Array.prototype.join]: [undefined] and [null] are
    rendered as the empty string, everything else through [ToString]. *)
Definition join_element (v : JsVal) : string + JsVal :=
  match v with
  | JUndefined | JNull => inl EmptyString
  | _ => ToString v
  end.

(** [args.join(sep)]: the elements are converted from left to right, and the
    first conversion that throws ends the call. *)
Fixpoint Array_join (sep : string) (args : list JsVal) : string + JsVal :=
  match args with
  | [] => inl EmptyString
  | [v] => join_element v
  | v :: rest =>
      match join_element v with
      | inr e => inr e
      | inl t =>
          match Array_join sep rest with
          | inr e => inr e
          | inl ts => inl (t +:+ sep +:+ ts)
          end
      end
  end.

(** [needle] occurs in [hay] as a contiguous substring. *)
Fixpoint contains (needle hay : string) : bool :=
  String.prefix needle hay ||
  match hay with
  | EmptyString => false
  | String _ hay' => contains needle hay'
  end.

(** The [TypeError] the engine raises for [v.stack] when [v] is [undefined]
    or [null]. *)
Definition TypeError_cannot_read_stack (v : JsVal) : JsVal :=
  TypeError ("Cannot read property 'stack' of " +:+
             match v with JNull => "null" | _ => "undefined" end).

(** ** Property look-up on a plain object

    [Game.creeps] is a plain object, so [Game.creeps[i]] finds an own
    property or, failing that, a property inherited from
    [Object.prototype]. *)

(** The property names of [Object.prototype]. *)
Definition Object_prototype_names : list string :=
  ["constructor"; "__defineGetter__"; "__defineSetter__"; "hasOwnProperty";
   "__lookupGetter__"; "__lookupSetter__"; "isPrototypeOf";
   "propertyIsEnumerable"; "toString"; "valueOf"; "__proto__";
   "toLocaleString"].

Inductive Property (A : Type) : Type :=
| OwnProperty (a : A)
| InheritedProperty
| NoProperty.

Arguments OwnProperty {A} a.
Arguments InheritedProperty {A}.
Arguments NoProperty {A}.

(** [obj[i]] *)
Definition get_property {A} (obj : gmap string A) (i : string) : Property A :=
  match obj !! i with
  | Some a => OwnProperty a
  | None =>
      if bool_decide (i ∈ Object_prototype_names)
      then InheritedProperty else NoProperty
  end.

(** ** The host and the agent module *)

(** A module instance, named by the order in which the loader produced it. *)
Definition Instance : Type := nat.

(** A live unit of [Game.creeps].  Handles are objects, hence truthy, and so
    are the members of [Object.prototype]: [!Game.creeps[i]] holds exactly
    when [Game.creeps] has no property [i], own or inherited. *)
Inductive Creep : Type := CreepHandle (id : string).

(** [Game.cpu]: the budget gauge and the text [JSON.stringify] gives for the
    whole object (the host decides which fields it has). *)
Record Cpu : Type := { bucket : Z; cpu_json : string }.

(** The three capabilities of the agent module. *)
Inductive Capability : Type :=
| initialize_instance
| setup
| module_loop.

(** What the driver did to the module cache and to the module, in order.
    [thrown] is [None] when the call returned and [Some e] when it threw
    [e]. *)
Inductive Event : Type :=
| Evict (name : string)
| Fetch (name : string) (m : Instance)
| Load (name : string) (m : Instance)
| LoadFailed (name : string) (e : JsVal)
| Call (c : Capability) (m : Instance) (thrown : option JsVal).

(** The whole state a tick runs in.
    - [wasm_module], [pause]: the driver's two module-level variables
      ([None] stands for both [undefined] and [null], which are the falsy
      values the variable takes);
    - [Memory_creeps], [Game_creeps], [Game_cpu], [require_cache]: the host's
      objects (an absent [Memory.creeps] enumerates no key, like the empty
      map);
    - [console], [notified]: what the driver passed to [console.log] (the
      arguments of each call, as values) and to [Game.notify];
    - [trace], [instances]: the history of cache and module events, and the
      number of instances loaded so far. *)
Record State : Type := {
  wasm_module : option Instance;
  pause : bool;
  Memory_creeps : gmap string string;
  Game_creeps : gmap string Creep;
  Game_cpu : Cpu;
  require_cache : gmap string Instance;
  console : list (list JsVal);
  notified : list string;
  trace : list Event;
  instances : nat
}.

Definition set_wasm_module (w : option Instance) (s : State) : State :=
  {| wasm_module := w; pause := pause s;
     Memory_creeps := Memory_creeps s; Game_creeps := Game_creeps s;
     Game_cpu := Game_cpu s; require_cache := require_cache s;
     console := console s; notified := notified s;
     trace := trace s; instances := instances s |}.

Definition set_pause (p : bool) (s : State) : State :=
  {| wasm_module := wasm_module s; pause := p;
     Memory_creeps := Memory_creeps s; Game_creeps := Game_creeps s;
     Game_cpu := Game_cpu s; require_cache := require_cache s;
     console := console s; notified := notified s;
     trace := trace s; instances := instances s |}.

Definition set_Memory_creeps (m : gmap string string) (s : State) : State :=
  {| wasm_module := wasm_module s; pause := pause s;
     Memory_creeps := m; Game_creeps := Game_creeps s;
     Game_cpu := Game_cpu s; require_cache := require_cache s;
     console := console s; notified := notified s;
     trace := trace s; instances := instances s |}.

Definition set_require_cache (c : gmap string Instance) (s : State) : State :=
  {| wasm_module := wasm_module s; pause := pause s;
     Memory_creeps := Memory_creeps s; Game_creeps := Game_creeps s;
     Game_cpu := Game_cpu s; require_cache := c;
     console := console s; notified := notified s;
     trace := trace s; instances := instances s |}.

Definition add_console (line : list JsVal) (s : State) : State :=
  {| wasm_module := wasm_module s; pause := pause s;
     Memory_creeps := Memory_creeps s; Game_creeps := Game_creeps s;
     Game_cpu := Game_cpu s; require_cache := require_cache s;
     console := console s ++ [line]; notified := notified s;
     trace := trace s; instances := instances s |}.

Definition add_notified (msg : string) (s : State) : State :=
  {| wasm_module := wasm_module s; pause := pause s;
     Memory_creeps := Memory_creeps s; Game_creeps := Game_creeps s;
     Game_cpu := Game_cpu s; require_cache := require_cache s;
     console := console s; notified := notified s ++ [msg];
     trace := trace s; instances := instances s |}.

Definition add_trace (ev : Event) (s : State) : State :=
  {| wasm_module := wasm_module s; pause := pause s;
     Memory_creeps := Memory_creeps s; Game_creeps := Game_creeps s;
     Game_cpu := Game_cpu s; require_cache := require_cache s;
     console := console s; notified := notified s;
     trace := trace s ++ [ev]; instances := instances s |}.

Definition new_instance (s : State) : State :=
  {| wasm_module := wasm_module s; pause := pause s;
     Memory_creeps := Memory_creeps s; Game_creeps := Game_creeps s;
     Game_cpu := Game_cpu s; require_cache := require_cache s;
     console := console s; notified := notified s;
     trace := trace s; instances := S (instances s) |}.

(** What the host owns.  The host may change it from one tick to the next,
    and the code of the agent module, which runs inside the tick, can write
    it too. *)
Record Host : Type := {
  host_Memory_creeps : gmap string string;
  host_Game_creeps : gmap string Creep;
  host_Game_cpu : Cpu;
  host_require_cache : gmap string Instance
}.

(** The host's objects as they are in [s]. *)
Definition host_of (s : State) : Host :=
  {| host_Memory_creeps := Memory_creeps s;
     host_Game_creeps := Game_creeps s;
     host_Game_cpu := Game_cpu s;
     host_require_cache := require_cache s |}.

(** The state of a freshly started host process: nothing loaded, not paused,
    nothing written yet. *)
Definition initial (h : Host) : State :=
  {| wasm_module := None; pause := false;
     Memory_creeps := host_Memory_creeps h;
     Game_creeps := host_Game_creeps h;
     Game_cpu := host_Game_cpu h;
     require_cache := host_require_cache h;
     console := []; notified := []; trace := []; instances := 0 |}.

(** The host's objects are replaced by [h]; the driver's variables stay. *)
Definition host_supplies (h : Host) (s : State) : State :=
  {| wasm_module := wasm_module s; pause := pause s;
     Memory_creeps := host_Memory_creeps h;
     Game_creeps := host_Game_creeps h;
     Game_cpu := host_Game_cpu h;
     require_cache := host_require_cache h;
     console := console s; notified := notified s;
     trace := trace s; instances := instances s |}.

(** ** Completions and the monad of driver code *)

(** How a piece of JavaScript ends: normally with a value, by a [return]
    statement, or by a [throw]. *)
Inductive Completion (A : Type) : Type :=
| Normal (a : A)
| Return
| Throw (e : JsVal).

Arguments Normal {A} a.
Arguments Return {A}.
Arguments Throw {A} e.

Definition M (A : Type) : Type := State -> Completion A * State.

Definition ret {A} (a : A) : M A := fun s => (Normal a, s).

Definition bind {A B} (m : M A) (k : A -> M B) : M B :=
  fun s =>
    match m s with
    | (Normal a, s') => k a s'
    | (Return, s') => (Return, s')
    | (Throw e, s') => (Throw e, s')
    end.

Definition return_ {A} : M A := fun s => (Return, s).
Definition throw {A} (e : JsVal) : M A := fun s => (Throw e, s).
Definition get {A} (f : State -> A) : M A := fun s => (Normal (f s), s).
Definition modify (f : State -> State) : M unit := fun s => (Normal tt, f s).

(** The result of an operation that yields a value or throws. *)
Definition evaluate {A} (r : A + JsVal) : M A :=
  match r with
  | inl a => ret a
  | inr e => throw e
  end.

(** [try { body } catch (error) { handler }]: only a [throw] reaches the
    handler; an early [return] leaves the function through the [try]. *)
Definition try_catch {A} (body : M A) (handler : JsVal -> M A) : M A :=
  fun s =>
    match body s with
    | (Throw e, s') => handler e s'
    | r => r
    end.

(** A function call: a [return] inside the body ends the call normally. *)
Definition function_call (body : M unit) : M unit :=
  fun s =>
    match body s with
    | (Return, s') => (Normal tt, s')
    | r => r
    end.

Declare Scope js_scope.
Delimit Scope js_scope with js.
Notation "'let*' x ':=' m 'in' k" := (bind m (fun x => k))
  (at level 10, x name, m at level 100, k at level 200) : js_scope.
Notation "m ';;' k" := (bind m (fun _ => k))
  (at level 100, k at level 200, right associativity) : js_scope.

Local Open Scope js_scope.

(** [for (var i in obj) body], over the keys enumerated when the loop is
    entered. *)
Fixpoint for_in (keys : list string) (body : string -> M unit) : M unit :=
  match keys with
  | [] => ret tt
  | i :: rest => body i ;; for_in rest body
  end.

(** ** The driver *)

(** replace this with the name of your module *)
Definition MODULE_NAME : string := "screeps-rs".

(** What the driver asks of the outside world: a fresh load of a module, or
    one capability of a loaded instance. *)
Inductive Request : Type :=
| ReqLoad (name : string)
| ReqCall (c : Capability) (m : Instance).

Section Driver.

(** The agent module and its loader are opaque collaborators, and their code
    runs inside the tick with write access to the host's objects.  What they
    do on a request may depend on everything that happened so far.  Of it
    the model keeps two things: [agent] says whether the request returned
    ([None]) or threw ([Some e]), and [writes] gives the host's objects as
    the request left them ([Memory.creeps], [Game.creeps], [Game.cpu],
    [require.cache]).  The driver's own two variables are private to it, and
    [console] and [notified] record the driver's own lines only. *)
Variable agent : Request -> State -> option JsVal.
Variable writes : Request -> State -> Host.

(** The state after the module's code ran for [req]. *)
Definition module_ran (req : Request) (s : State) : State :=
  host_supplies (writes req s) s.

(** The host's [console.log] and [Game.notify]; both take what they are
    given. *)
Definition console_log (args : list JsVal) : M unit :=
  modify (add_console args).

Definition Game_notify (msg : string) : M unit :=
  modify (add_notified msg).

Definition console_error (args : list JsVal) : M unit :=
  console_log args ;;
  let* msg := evaluate (Array_join " " args) in
  Game_notify msg.

(** [delete Memory.creeps[i]] *)
Definition delete_Memory_creep (i : string) : M unit :=
  modify (fun s => set_Memory_creeps (delete i (Memory_creeps s)) s).

(** [delete require.cache[name]] *)
Definition delete_require_cache (name : string) : M unit :=
  modify (fun s =>
    add_trace (Evict name) (set_require_cache (delete name (require_cache s)) s)).

(** The host's [require(name)]: fetch from the cache, or run the module's
    code to load a fresh instance and cache it.  The load may throw, and
    then nothing is cached. *)
Definition require (name : string) : M Instance :=
  fun s =>
    match require_cache s !! name with
    | Some m => (Normal m, add_trace (Fetch name m) s)
    | None =>
        let s1 := module_ran (ReqLoad name) s in
        match agent (ReqLoad name) s with
        | Some e => (Throw e, add_trace (LoadFailed name e) s1)
        | None =>
            let m := instances s in
            (Normal m,
             add_trace (Load name m)
               (set_require_cache (<[name := m]> (require_cache s1))
                  (new_instance s1)))
        end
    end.

(** [m.c()] *)
Definition call (m : Instance) (c : Capability) : M unit :=
  fun s =>
    let s1 := module_ran (ReqCall c m) s in
    match agent (ReqCall c m) s with
    | Some e => (Throw e, add_trace (Call c m (Some e)) s1)
    | None => (Normal tt, add_trace (Call c m None) s1)
    end.

(** [error.stack] *)
Definition get_stack (error : JsVal) : M JsVal :=
  match error with
  | JUndefined | JNull => throw (TypeError_cannot_read_stack error)
  | JStr _ | JSymbol _ => ret JUndefined
  | JObj _ stack => evaluate stack
  end.

(** Clean up dead creeps *)
Definition clean_up_dead_creeps : M unit :=
  let* keys := get (fun s => (map_to_list (Memory_creeps s)).*1) in
  for_in keys (fun i =>
    let* live := get (fun s => get_property (Game_creeps s) i) in
    match live with
    | NoProperty => delete_Memory_creep i
    | _ => ret tt
    end).

(** The body of the [try]. *)
Definition try_block : M unit :=
  let* w := get wasm_module in
  match w with
  | Some m => call m module_loop
  | None =>
      (* attempt to load the wasm only if there's enough bucket to do a
         bunch of work this tick *)
      let* cpu := get Game_cpu in
      (if (bucket cpu <? 500)%Z
       then
         console_log
           [JStr ("we are running out of time, pausing compile!"
                  +:+ cpu_json cpu)] ;;
         return_
       else ret tt) ;;
      (* delete the module from the cache, so we can reload it *)
      let* cache := get require_cache in
      (if decide (is_Some (cache !! MODULE_NAME))
       then delete_require_cache MODULE_NAME
       else ret tt) ;;
      (* load the wasm module *)
      let* m := require MODULE_NAME in
      modify (set_wasm_module (Some m)) ;;
      (* load the wasm instance! *)
      call m initialize_instance ;;
      (* run the setup function, which configures logging *)
      call m setup ;;
      (* go ahead and run the loop for its first tick *)
      call m module_loop
  end.

(** The body of the [catch]. *)
Definition catch_block (error : JsVal) : M unit :=
  console_error [JStr "resetting VM next tick."] ;;
  console_error [error] ;;
  let* stack := get_stack error in
  console_error [stack] ;;
  modify (set_wasm_module None) ;;
  modify (set_pause false).

(** [module.exports.loop], the function the host calls once per tick. *)
Definition loop : M unit :=
  function_call (
    let* p := get pause in
    (if p then return_ else ret tt) ;;
    clean_up_dead_creeps ;;
    try_catch try_block catch_block).

End Driver.

(** ** Between ticks *)

(** The states the driver can be in between two ticks: the initial one (also
    the one after the host recycled the process), the one a tick leaves
    behind (however the tick ended), and the one after the host changed its
    objects. *)
Inductive reachable (agent : Request -> State -> option JsVal)
    (writes : Request -> State -> Host) : State -> Prop :=
| reachable_initial h : reachable agent writes (initial h)
| reachable_tick s :
    reachable agent writes s -> reachable agent writes (loop agent writes s).2
| reachable_host h s :
    reachable agent writes s -> reachable agent writes (host_supplies h s).

(** The same, along ticks that returned to the host without an exception. *)
Inductive reachable_quietly (agent : Request -> State -> option JsVal)
    (writes : Request -> State -> Host) : State -> Prop :=
| quietly_initial h : reachable_quietly agent writes (initial h)
| quietly_tick s s' :
    reachable_quietly agent writes s ->
    loop agent writes s = (Normal tt, s') ->
    reachable_quietly agent writes s'
| quietly_host h s :
    reachable_quietly agent writes s ->
    reachable_quietly agent writes (host_supplies h s).

(** ** Vocabulary of the properties *)

(** [!obj[i]]: the object has no property [i], own or inherited. *)
Definition missing {A} (obj : gmap string A) (i : string) : bool :=
  match get_property obj i with
  | NoProperty => true
  | _ => false
  end.

(** The memory mapping after the clean-up loop has visited [keys]. *)
Definition sweep (live : gmap string Creep) (keys : list string)
    (memory : gmap string string) : gmap string string :=
  foldl (fun m i => if missing live i then delete i m else m) memory keys.

(** The events a tick added to the trace, and the lines and notifications it
    wrote. *)
Definition tick_events (s s' : State) : list Event :=
  drop (length (trace s)) (trace s').
Definition tick_lines (s s' : State) : list (list JsVal) :=
  drop (length (console s)) (console s').
Definition tick_notified (s s' : State) : list string :=
  drop (length (notified s)) (notified s').

(** A load or a call that returned. *)
Definition returned (ev : Event) : bool :=
  match ev with
  | LoadFailed _ _ | Call _ _ (Some _) => false
  | _ => true
  end.

(** A value a property can be read from. *)
Definition has_properties (v : JsVal) : bool :=
  match v with
  | JUndefined | JNull => false
  | _ => true
  end.

(** The cold-start sequence on instance [m]: the eviction when there was a
    cached entry, the fresh load, then the three capabilities. *)
Definition cold_start (cached : bool) (m : Instance)
    (r1 r2 r3 : option JsVal) : list Event :=
  (if cached then [Evict MODULE_NAME] else []) ++
  [Load MODULE_NAME m; Call initialize_instance m r1; Call setup m r2;
   Call module_loop m r3].

Definition is_call (c : Capability) (m : Instance) (ev : Event) : bool :=
  match ev, c with
  | Call initialize_instance m' None, initialize_instance
  | Call setup m' None, setup
  | Call module_loop m' None, module_loop => Nat.eqb m m'
  | _, _ => false
  end.

(** [initialize_instance] and, later, [setup] have returned on [m]. *)
Fixpoint initialized (m : Instance) (tr : list Event) : bool :=
  match tr with
  | [] => false
  | ev :: tr' =>
      (is_call initialize_instance m ev && existsb (is_call setup m) tr')
      || initialized m tr'
  end.

(** The invariant of the data model: what [wasm_module] holds is fully
    initialized. *)
Definition loaded_is_initialized (s : State) : Prop :=
  forall m, wasm_module s = Some m -> initialized m (trace s) = true.

(** The state the clean-up loop leaves: every key of [Memory.creeps] has
    been visited. *)
Definition swept (s : State) : State :=
  set_Memory_creeps
    (sweep (Game_creeps s) (map_to_list (Memory_creeps s)).*1 (Memory_creeps s))
    s.

(** A tick performed the whole cold-start sequence and kept the instance. *)
Definition runs_cold_start (agent : Request -> State -> option JsVal)
    (writes : Request -> State -> Host) (s : State) : Prop :=
  let s' := (loop agent writes s).2 in
  exists m r1 r2 r3,
    tick_events s s' =
      cold_start (bool_decide (is_Some (require_cache s !! MODULE_NAME)))
        m r1 r2 r3
    /\ wasm_module s' = Some m.

(** Between [s] and [s'] exactly one notification was sent, and it contains
    the text of [e]. *)
Definition notifies_once (e : JsVal) (s s' : State) : Prop :=
  exists msg text,
    tick_notified s s' = [msg] /\ ToString e = inl text /\
    contains text msg = true.

(** One of the strings passed to [console.log] in this line contains
    [msg]. *)
Definition line_contains (msg : string) (line : list JsVal) : bool :=
  existsb (fun v => match v with JStr t => contains msg t | _ => false end)
    line.

(** Between [s] and [s'] a line containing [msg] was logged. *)
Definition logs_containing (msg : string) (s s' : State) : Prop :=
  exists line, line ∈ tick_lines s s' /\ line_contains msg line = true.


(** ** Concrete hosts and agents *)

Definition capability_eqb (c c' : Capability) : bool :=
  match c, c' with
  | initialize_instance, initialize_instance
  | setup, setup
  | module_loop, module_loop => true
  | _, _ => false
  end.

(** An agent that never throws. *)
Definition agent_well_behaved : Request -> State -> option JsVal :=
  fun _ _ => None.

(** An agent whose capability [c] throws [e], and nothing else does. *)
Definition agent_throwing (c : Capability) (e : JsVal)
  : Request -> State -> option JsVal :=
  fun req _ =>
    match req with
    | ReqCall c' _ => if capability_eqb c c' then Some e else None
    | ReqLoad _ => None
    end.

(** A module whose code leaves the host's objects as they are. *)
Definition writes_nothing : Request -> State -> Host :=
  fun _ s => host_of s.

(** A module whose [loop] writes a memory record for the unit [b] (one it
    has just ordered, say), and whose other code writes nothing. *)
Definition writes_record_of_b : Request -> State -> Host :=
  fun req s =>
    match req with
    | ReqCall module_loop _ =>
        {| host_Memory_creeps := <["b" := "{}"]> (Memory_creeps s);
           host_Game_creeps := Game_creeps s;
           host_Game_cpu := Game_cpu s;
           host_require_cache := require_cache s |}
    | _ => host_of s
    end.

(** Two memory records, one live unit, a cached build of the module. *)
Definition example_host (gauge : Z) : Host :=
  {| host_Memory_creeps := <["a" := "{}"]> (<["b" := "{}"]> ∅);
     host_Game_creeps := <["a" := CreepHandle "a"]> ∅;
     host_Game_cpu := {| bucket := gauge; cpu_json := "{}" |};
     host_require_cache := <[MODULE_NAME := 7%nat]> ∅ |}.

(** The same, with a third record, of a dead unit named [toString]. *)
Definition example_host_toString : Host :=
  {| host_Memory_creeps :=
       <["toString" := "{}"]> (host_Memory_creeps (example_host 499));
     host_Game_creeps := host_Game_creeps (example_host 499);
     host_Game_cpu := host_Game_cpu (example_host 499);
     host_require_cache := host_require_cache (example_host 499) |}.

(** The state after one successful cold start on that host. *)
Definition example_loaded : State :=
  (loop agent_well_behaved writes_nothing (initial (example_host 1000))).2.

(** A state in which the pause flag was set from outside. *)
Definition example_paused : State :=
  set_pause true (initial (example_host 1000)).

(** An agent whose loader throws [e]. *)
Definition agent_failing_load (e : JsVal) : Request -> State -> option JsVal :=
  fun req _ =>
    match req with
    | ReqLoad _ => Some e
    | ReqCall _ _ => None
    end.

(** An agent whose first build is broken: [setup] throws on instance 0, and
    every later instance works. *)
Definition agent_first_build_broken : Request -> State -> option JsVal :=
  fun req _ =>
    match req with
    | ReqCall setup 0%nat => Some (JStr "boom")
    | _ => None
    end.

(** An [Error] object as the engine makes it for [new Error(message)]. *)
Definition Error_object (message : string) : JsVal :=
  JObj (inl ("Error: " +:+ message))
       (inl (JStr ("Error: " +:+ message +:+ " at setup"))).

(** ** Several ticks *)

(** One tick per element of [hosts]: before each tick the host supplies its
    objects anew. *)
Fixpoint ticks (agent : Request -> State -> option JsVal)
    (writes : Request -> State -> Host)
    (hosts : list Host) (s : State) : State :=
  match hosts with
  | [] => s
  | h :: rest =>
      ticks agent writes rest (loop agent writes (host_supplies h s)).2
  end.

(** * Properties *)

(** ** The clean-up loop *)

(** A property is missing exactly when it is neither an own key nor a name
    of [Object.prototype]. *)
Lemma missing_iff {A} (obj : gmap string A) i :
  missing obj i = true <-> obj !! i = None /\ i ∉ Object_prototype_names.
Proof.
  unfold missing, get_property. destruct (obj !! i) as [a|].
  - split; [discriminate | intros [? _]; discriminate].
  - destruct (bool_decide_reflect (i ∈ Object_prototype_names)) as [Hin|Hout].
    + split; [discriminate | intros [_ ?]; done].
    + split; [done | reflexivity].
Qed.

(** A key is gone after the sweep exactly when it was visited and the live
    units have no such property; every other key keeps what it had. *)
Lemma sweep_lookup live keys memory i :
  sweep live keys memory !! i =
  if decide (i ∈ keys ∧ missing live i = true) then None else memory !! i.
Proof.
  revert memory. induction keys as [|k keys IH]; intros memory.
  - cbn [sweep foldl]. destruct (decide _) as [[H _]|_]; [inversion H | done].
  - change (sweep live (k :: keys) memory)
      with (sweep live keys (if missing live k then delete k memory else memory)).
    rewrite IH.
    destruct (decide (i ∈ keys ∧ missing live i = true)) as [[Hin Hl]|Hno].
    + rewrite decide_True; [done | split; [by right | done]].
    + destruct (decide (i = k)) as [->|Hne].
      * destruct (missing live k) eqn:Hk.
        -- rewrite lookup_delete_eq.
           rewrite decide_True; [done | split; [by left | done]].
        -- rewrite decide_False; [done | intros [_ ?]; congruence].
      * rewrite decide_False.
        -- destruct (missing live k); [by rewrite lookup_delete_ne | done].
        -- intros [Hin Hl]. apply Hno. split; [|done].
           apply elem_of_cons in Hin as [?|?]; [congruence | done].
Qed.

Lemma for_in_sweep keys s :
  for_in keys (fun i =>
    let* live := get (fun s => get_property (Game_creeps s) i) in
    match live with
    | NoProperty => delete_Memory_creep i
    | _ => ret tt
    end) s
  = (Normal tt,
     set_Memory_creeps (sweep (Game_creeps s) keys (Memory_creeps s)) s).
Proof.
  revert s. induction keys as [|k keys IH]; intros s.
  - destruct s; reflexivity.
  - cbn [for_in]. unfold bind at 1. unfold bind at 1. unfold get at 1.
    change (sweep (Game_creeps s) (k :: keys) (Memory_creeps s))
      with (sweep (Game_creeps s) keys
              (if missing (Game_creeps s) k
               then delete k (Memory_creeps s) else Memory_creeps s)).
    unfold missing.
    destruct (get_property (Game_creeps s) k) eqn:Hk.
    + unfold ret at 1. rewrite IH. reflexivity.
    + unfold ret at 1. rewrite IH. reflexivity.
    + unfold delete_Memory_creep, modify. rewrite IH. reflexivity.
Qed.

Lemma clean_up_dead_creeps_run s :
  clean_up_dead_creeps s = (Normal tt, swept s).
Proof. unfold clean_up_dead_creeps, bind, get. apply for_in_sweep. Qed.

(** ** Running one tick *)

(** Symbolic execution of the handler alone. *)
Ltac run_handler :=
  unfold catch_block, console_error, console_log, Game_notify, get_stack,
    evaluate, bind, ret, get, modify, return_, throw in *;
  simpl in *.

(** Symbolic execution of the tick up to the handler, which stays folded. *)
Ltac run :=
  unfold function_call, try_catch, try_block, console_log,
    delete_require_cache, require, call, bind, ret, get, modify, return_,
    throw in *;
  simpl in *.

(** Every path through the code, one goal each. *)
Ltac paths := repeat (case_match; simplify_eq; simpl).

(** The same, simplifying the hypotheses as well. *)
Ltac all_paths := repeat (case_match; simplify_eq/=).

(** Bring [(tr ++ [a]) ++ [b]] to [tr ++ [a; b]] and cut [tr] off. *)
Ltac new_events :=
  unfold tick_events, tick_lines, tick_notified in *;
  simpl in *;
  repeat match goal with
    | H : context [(_ ++ _) ++ _] |- _ => rewrite <- app_assoc in H
    | |- context [(_ ++ _) ++ _] => rewrite <- app_assoc
    end;
  simpl in *;
  repeat match goal with
    | H : context [drop (length ?l) (?l ++ _)] |- _ =>
        rewrite drop_app_length in H
    | |- context [drop (length ?l) (?l ++ _)] => rewrite drop_app_length
    | |- context [drop (length ?l) ?l] => rewrite drop_all
    end;
  simpl in *.

(** Paths that cannot be taken: a cache hit right after the eviction. *)
Ltac no_fetch :=
  try (by exfalso; simpl in *; rewrite ?lookup_delete_eq in *; eauto).

(** What the handler does whatever it catches: it is never left by a
    [return], it makes no call on the module or its cache, and it writes none
    of the host's objects; it logs the fixed line first and sends it as its
    first notification; and either it resets the module reference and the
    flag and returns, or it throws and leaves both as they were. *)
Lemma catch_block_frame e s :
  let r := catch_block e s in
  r.1 <> Return /\
  trace r.2 = trace s /\ instances r.2 = instances s /\
  Memory_creeps r.2 = Memory_creeps s /\ Game_creeps r.2 = Game_creeps s /\
  Game_cpu r.2 = Game_cpu s /\ require_cache r.2 = require_cache s /\
  (exists rest,
     console r.2 = console s ++ [JStr "resetting VM next tick."] :: rest) /\
  (exists rest,
     notified r.2 = notified s ++ "resetting VM next tick." :: rest) /\
  ((r.1 = Normal tt /\ wasm_module r.2 = None /\ pause r.2 = false) \/
   ((exists t, r.1 = Throw t) /\
    wasm_module r.2 = wasm_module s /\ pause r.2 = pause s)).
Proof.
  run_handler.
  all_paths; split_and!; try done;
    try (eexists; rewrite <- ?app_assoc; reflexivity);
    try (left; done); right; split_and!; try done; by eexists.
Qed.

(** Use the handler's frame where a path ends in the handler. *)
Ltac handled :=
  try match goal with
    | H : catch_block ?e ?s = (?c, ?s') |- _ =>
        let Hf := fresh "Hframe" in
        let Hnoret := fresh "Hnoret" in
        let Htrace := fresh "Htrace" in
        let Hinst := fresh "Hinst" in
        let Hmem := fresh "Hmem" in
        let Hcreeps := fresh "Hcreeps" in
        let Hcpu := fresh "Hcpu" in
        let Hcache := fresh "Hcache" in
        let Hlines := fresh "Hlines" in
        let Hmsgs := fresh "Hmsgs" in
        let Hend := fresh "Hend" in
        let Hmod := fresh "Hmod" in
        let Hflag := fresh "Hflag" in
        pose proof (catch_block_frame e s) as Hf;
        rewrite H in Hf; clear H; cbn [fst snd] in Hf;
        destruct Hf as
          (Hnoret & Htrace & Hinst & Hmem & Hcreeps & Hcpu & Hcache &
           [? Hlines] & [? Hmsgs] &
           [(Hend & Hmod & Hflag) | ([? Hend] & Hmod & Hflag)]);
        unfold tick_events, tick_lines, tick_notified;
        simpl;
        try rewrite Htrace; try rewrite Hinst;
        try rewrite Hmem; try rewrite Hcreeps;
        try rewrite Hcpu; try rewrite Hcache;
        try rewrite Hlines; try rewrite Hmsgs;
        try rewrite Hmod; try rewrite Hflag;
        simplify_eq; simpl
    end.

Section Facts.

Variable agent : Request -> State -> option JsVal.
Variable writes : Request -> State -> Host.

Lemma loop_paused s :
  pause s = true -> loop agent writes s = (Normal tt, s).
Proof.
  intros Hp. unfold loop, function_call, bind, get. rewrite Hp. reflexivity.
Qed.

Lemma loop_unpaused s :
  pause s = false ->
  loop agent writes s =
  function_call (try_catch (try_block agent writes) catch_block) (swept s).
Proof.
  intros Hp. unfold loop, function_call, bind, get. rewrite Hp.
  unfold ret at 1. rewrite clean_up_dead_creeps_run. reflexivity.
Qed.

(** The tick never changes the pause flag. *)
Lemma loop_pause s : pause (loop agent writes s).2 = pause s.
Proof.
  destruct (pause s) eqn:Hp.
  - by rewrite (loop_paused s Hp).
  - rewrite (loop_unpaused s Hp). run. paths; handled; congruence.
Qed.


(** C6.  When [pause] is true the tick returns at once and leaves the whole
    state as it was: no deletion from the memory mapping, no event on the
    module or its cache, no line logged, no notification, and
    [wasm_module] and [pause] unchanged. *)
Theorem paused_tick_does_nothing s :
  pause s = true -> loop agent writes s = (Normal tt, s).
Proof. apply loop_paused. Qed.


(** C4.  In an unpaused tick with no module loaded and the bucket strictly
    below 500, the driver logs exactly one line and returns: the trace, the
    module cache and the number of loaded instances are as before, nothing
    is notified, and [wasm_module] is still unset. *)
Theorem budget_gate s :
  pause s = false -> wasm_module s = None -> (bucket (Game_cpu s) < 500)%Z ->
  let s' := (loop agent writes s).2 in
  (loop agent writes s).1 = Normal tt /\
  console s' = console s ++
    [[JStr ("we are running out of time, pausing compile!"
            +:+ cpu_json (Game_cpu s))]] /\
  trace s' = trace s /\ require_cache s' = require_cache s /\
  instances s' = instances s /\ notified s' = notified s /\
  wasm_module s' = None.
Proof.
  intros Hp Hw Hb. rewrite (loop_unpaused s Hp).
  run. rewrite Hw. simpl.
  apply Z.ltb_lt in Hb. rewrite Hb. simpl.
  repeat split; done.
Qed.

(** C5.  In an unpaused tick with a module loaded, the only event is one
    call of the module's [loop]: no [initialize_instance], no [setup], no
    eviction and no load; the driver leaves the cache as the module's [loop]
    left it, and the number of loaded instances is unchanged. *)
Theorem steady_state s m :
  pause s = false -> wasm_module s = Some m ->
  let s' := (loop agent writes s).2 in
  (exists r, tick_events s s' = [Call module_loop m r]) /\
  require_cache s' =
    require_cache (module_ran writes (ReqCall module_loop m) (swept s)) /\
  instances s' = instances s.
Proof.
  intros Hp Hw. rewrite (loop_unpaused s Hp). run. rewrite Hw.
  paths; handled; new_events; (split; [by eexists | done]).
Qed.

(** C1, amended.  In an unpaused tick with no module loaded and the bucket
    at 500 or more, if every load and call of the tick returns without
    throwing, then the tick evicts the cached entry when there is one, loads
    a fresh instance, calls [initialize_instance], [setup] and [loop] on it
    in that order, returns, and keeps the instance in [wasm_module] (and,
    when the capabilities leave the module cache alone, in the cache). *)
Theorem cold_start_sequence s :
  pause s = false -> wasm_module s = None ->
  (500 <= bucket (Game_cpu s))%Z ->
  let s' := (loop agent writes s).2 in
  forallb returned (tick_events s s') = true ->
  (loop agent writes s).1 = Normal tt /\
  tick_events s s' =
    cold_start (bool_decide (is_Some (require_cache s !! MODULE_NAME)))
      (instances s) None None None /\
  wasm_module s' = Some (instances s) /\
  ((forall c st,
      host_require_cache (writes (ReqCall c (instances s)) st) =
      require_cache st) ->
   require_cache s' !! MODULE_NAME = Some (instances s)).
Proof.
  intros Hp Hw Hb s'. subst s'. rewrite (loop_unpaused s Hp).
  unfold cold_start. run. rewrite Hw. simpl.
  apply Z.ltb_ge in Hb. rewrite Hb. simpl.
  destruct (decide (is_Some (require_cache s !! MODULE_NAME))) as [Hc|Hc].
  - rewrite (bool_decide_eq_true_2 _ Hc). simpl.
    rewrite lookup_delete_eq.
    paths; handled; new_events; intros Hret; try discriminate;
      split_and!; try done; intros Hkeep; unfold module_ran; simpl;
      repeat (rewrite Hkeep; simpl); by rewrite lookup_insert_eq.
  - rewrite (bool_decide_eq_false_2 _ Hc). simpl.
    apply eq_None_not_Some in Hc. rewrite Hc.
    paths; handled; new_events; intros Hret; try discriminate;
      split_and!; try done; intros Hkeep; unfold module_ran; simpl;
      repeat (rewrite Hkeep; simpl); by rewrite lookup_insert_eq.
Qed.

(** ** The failure handler *)

(** The handler is entered with what the [try] block threw, in the state
    the block left. *)
Lemma loop_catches s e :
  pause s = false ->
  (try_block agent writes (swept s)).1 = Throw e ->
  loop agent writes s = catch_block e (try_block agent writes (swept s)).2.
Proof.
  intros Hp He. rewrite (loop_unpaused s Hp). unfold function_call, try_catch.
  destruct (try_block agent writes (swept s)) as [c s1]. simpl in *. subst c.
  pose proof (catch_block_frame e s1) as [Hnoret _].
  destruct (catch_block e s1) as [[[]| |e'] s2]; done.
Qed.

(** The [try] block neither notifies nor, when it throws, logs. *)
Lemma try_block_notified s :
  notified (try_block agent writes s).2 = notified s.
Proof. run. paths; done. Qed.

Lemma try_block_throw_console s e :
  (try_block agent writes s).1 = Throw e ->
  console (try_block agent writes s).2 = console s.
Proof. run. paths; done. Qed.

(** Reading [stack] does not depend on the state. *)
Lemma get_stack_anywhere e s s' stack :
  get_stack e s = (Normal stack, s) -> get_stack e s' = (Normal stack, s').
Proof. run_handler. intros; all_paths; done. Qed.

(** A caught value is handled to the end when its [stack] can be read and
    both the value and its [stack] can be converted to a string: the handler
    returns, and the module reference and the pause flag are reset. *)
Lemma catch_block_recovers e s stack text stack_text :
  get_stack e s = (Normal stack, s) ->
  ToString e = inl text ->
  Array_join " " [stack] = inl stack_text ->
  let s' := (catch_block e s).2 in
  (catch_block e s).1 = Normal tt /\ wasm_module s' = None /\ pause s' = false.
Proof. run_handler. intros; all_paths; done. Qed.

(** For [undefined] and [null] the handler itself throws, before it resets
    anything. *)
Lemma catch_block_escapes e s :
  has_properties e = false ->
  let s' := (catch_block e s).2 in
  (catch_block e s).1 = Throw (TypeError_cannot_read_stack e) /\
  wasm_module s' = wasm_module s.
Proof. destruct e; try discriminate; intros _; run_handler; done. Qed.

(** So a tick whose [try] block throws such a value returns to the host with
    the module reference unset and the flag false. *)
Lemma loop_recovers s e stack text stack_text :
  pause s = false ->
  (try_block agent writes (swept s)).1 = Throw e ->
  get_stack e s = (Normal stack, s) ->
  ToString e = inl text ->
  Array_join " " [stack] = inl stack_text ->
  (loop agent writes s).1 = Normal tt /\
  wasm_module (loop agent writes s).2 = None /\
  pause (loop agent writes s).2 = false.
Proof.
  intros Hp He Hst Ht Hs. rewrite (loop_catches s e Hp He).
  apply (catch_block_recovers e _ stack text stack_text); [|done..].
  by apply (get_stack_anywhere e s).
Qed.

(** C8, amended.  For every exception caught in an unpaused tick whose
    [stack] can be read and which, like its [stack], can be converted to a
    string, exactly three messages are sent through the notification
    channel, one per [console_error]: the fixed line, the text of the error,
    and the text of its [stack] (empty when it has none). *)
Theorem caught_exception_notified s e stack text stack_text :
  pause s = false ->
  (try_block agent writes (swept s)).1 = Throw e ->
  get_stack e s = (Normal stack, s) ->
  ToString e = inl text ->
  Array_join " " [stack] = inl stack_text ->
  tick_notified s (loop agent writes s).2 =
    ["resetting VM next tick."; text; stack_text].
Proof.
  intros Hp He Hst Ht Hs. rewrite (loop_catches s e Hp He).
  unfold tick_notified.
  pose proof (try_block_notified (swept s)) as Hn. simpl in Hn.
  destruct (try_block agent writes (swept s)) as [c s1]. simpl in *.
  clear He. revert Hst Ht Hs. run_handler.
  intros; all_paths; rewrite Hn; by new_events.
Qed.

(** C9, amended.  For every exception caught in an unpaused tick, the first
    line the handler logs is the fixed diagnostic line, whose text is
    [resetting VM next tick.] *)
Theorem caught_exception_logged s e :
  pause s = false ->
  (try_block agent writes (swept s)).1 = Throw e ->
  exists rest,
    tick_lines s (loop agent writes s).2 =
      [JStr "resetting VM next tick."] :: rest.
Proof.
  intros Hp He. rewrite (loop_catches s e Hp He). unfold tick_lines.
  pose proof (try_block_throw_console (swept s) e He) as Hn. simpl in Hn.
  destruct (catch_block_frame e (try_block agent writes (swept s)).2)
    as (_ & _ & _ & _ & _ & _ & _ & [rest Hlines] & _).
  exists rest. rewrite Hlines, Hn. by rewrite drop_app_length.
Qed.

(** ** Invariants between ticks *)

(** C10.  From the initial state on, [pause] is false in every state the
    driver reaches, whatever the ticks did and however they ended: the tick
    never sets the flag (its one assignment writes [false]). *)
Theorem pause_stays_false s : reachable agent writes s -> pause s = false.
Proof.
  induction 1 as [h | s _ IH | h s _ IH].
  - reflexivity.
  - by rewrite loop_pause.
  - exact IH.
Qed.

Lemma initialized_app_l m tr tr' :
  initialized m tr = true -> initialized m (tr ++ tr') = true.
Proof.
  induction tr as [|ev tr IH]; [discriminate|]. simpl.
  intros [[Hi Hs]%andb_true_iff | Hrec]%orb_true_iff; apply orb_true_iff.
  - left. rewrite Hi, existsb_app, Hs. reflexivity.
  - right. by apply IH.
Qed.

Lemma initialized_app_r m tr tr' :
  initialized m tr' = true -> initialized m (tr ++ tr') = true.
Proof.
  intros H. induction tr as [|ev tr IH]; [done|]. simpl.
  rewrite IH. apply orb_true_r.
Qed.

(** A tick that returns to the host keeps the invariant of the data model. *)
Lemma loop_keeps_initialized s s' :
  loaded_is_initialized s ->
  loop agent writes s = (Normal tt, s') ->
  loaded_is_initialized s'.
Proof.
  unfold loaded_is_initialized. intros Hinv Hrun.
  destruct (pause s) eqn:Hp.
  { rewrite (loop_paused s Hp) in Hrun. by simplify_eq. }
  rewrite (loop_unpaused s Hp) in Hrun. run.
  destruct (wasm_module s) as [m0|] eqn:Hw.
  - paths; handled; intros m Hm; simplify_eq/=.
    apply initialized_app_l. by apply Hinv.
  - paths; handled; intros m Hm; simplify_eq/=; no_fetch;
      rewrite <- !app_assoc; apply initialized_app_r; simpl;
      rewrite ?Nat.eqb_refl, ?orb_true_r; reflexivity.
Qed.

(** X16.  Along ticks that return, [wasm_module] is unset or holds an
    instance on which [initialize_instance] and then [setup] have
    returned. *)
Lemma quiet_ticks_keep_initialized s :
  reachable_quietly agent writes s -> loaded_is_initialized s.
Proof.
  induction 1 as [h | s s' _ IH Hrun | h s _ IH].
  - intros m Hm. discriminate.
  - by apply (loop_keeps_initialized s s').
  - exact IH.
Qed.

End Facts.

(** ** The driver at concrete inputs *)

(** The second scenario of the specification: gauge 499, nothing loaded. *)
Example gauge_499 :
  let r := loop agent_well_behaved writes_nothing (initial (example_host 499)) in
  r.1 = Normal tt /\ length (console r.2) = 1%nat /\ wasm_module r.2 = None.
Proof. vm_compute. repeat split. Qed.

(** The third scenario: gauge 1000, [setup] throws the string [boom]. *)
Example setup_throws_boom :
  let r := loop (agent_throwing setup (JStr "boom")) writes_nothing
             (initial (example_host 1000)) in
  r.1 = Normal tt /\
  console r.2 = [[JStr "resetting VM next tick."]; [JStr "boom"]; [JUndefined]] /\
  notified r.2 = ["resetting VM next tick."; "boom"; EmptyString] /\
  wasm_module r.2 = None.
Proof. vm_compute. repeat split. Qed.

(** A dead unit named [toString]: [Game.creeps.toString] is the inherited
    function, so the clean-up keeps the record, while it deletes the record
    of the dead unit [b]. *)
Example dead_unit_named_toString :
  let s := initial example_host_toString in
  let s' := (loop agent_well_behaved writes_nothing s).2 in
  Game_creeps s !! "toString" = None /\ Game_creeps s !! "b" = None /\
  Memory_creeps s' !! "toString" = Some "{}" /\ Memory_creeps s' !! "b" = None.
Proof. vm_compute. repeat split. Qed.

(** C1 as stated fails: when [initialize_instance] throws, [setup] and [loop]
    are never called and the instance is not kept, although nothing was
    loaded, the driver was not paused, and the gauge was 1000. *)
Lemma cold_start_cut_short :
  let s := initial (example_host 1000) in
  let agent := agent_throwing initialize_instance (JStr "boom") in
  pause s = false /\ wasm_module s = None /\
  (500 <= bucket (Game_cpu s))%Z /\
  tick_events s (loop agent writes_nothing s).2 =
    [Evict MODULE_NAME; Load MODULE_NAME 0%nat;
     Call initialize_instance 0%nat (Some (JStr "boom"))] /\
  ~ runs_cold_start agent writes_nothing s.
Proof.
  repeat split; try reflexivity; try (vm_compute; congruence).
  intros (m & r1 & r2 & r3 & _ & Hkept). vm_compute in Hkept. discriminate.
Qed.

(** C2 fails when the thrown value is [null]: the handler's own [error.stack]
    throws, the [TypeError] leaves the tick, and [wasm_module] is still
    set. *)
Theorem null_exception_escapes :
  let agent := agent_throwing module_loop JNull in
  let s := example_loaded in
  pause s = false /\ wasm_module s = Some 0%nat /\
  tick_events s (loop agent writes_nothing s).2 =
    [Call module_loop 0%nat (Some JNull)] /\
  (loop agent writes_nothing s).1 = Throw (TypeError_cannot_read_stack JNull) /\
  wasm_module (loop agent writes_nothing s).2 = Some 0%nat.
Proof. vm_compute. repeat split. Qed.


(** C7 fails for the same reason as C2: when [initialize_instance] throws
    [null] during a cold start, the tick ends with the handler's
    [TypeError], and the state it leaves holds in [wasm_module] an instance
    on which neither [initialize_instance] nor [setup] has returned; the next
    tick calls [loop] on it. *)
Theorem partially_initialized_instance_kept :
  let agent := agent_throwing initialize_instance JNull in
  let s0 := initial (example_host 1000) in
  let s1 := (loop agent writes_nothing s0).2 in
  reachable agent writes_nothing s1 /\
  (loop agent writes_nothing s0).1 = Throw (TypeError_cannot_read_stack JNull) /\
  wasm_module s1 = Some 0%nat /\
  initialized 0 (trace s1) = false /\
  tick_events s1 (loop agent writes_nothing s1).2 =
    [Call module_loop 0%nat None].
Proof.
  split; [apply reachable_tick, reachable_initial |].
  vm_compute. repeat split.
Qed.

(** C8 as stated fails: one caught exception sends three notifications, not
    one. *)
Lemma three_notifications_for_one_exception :
  let s := initial (example_host 1000) in
  let agent := agent_throwing setup (JStr "boom") in
  pause s = false /\
  (try_block agent writes_nothing (swept s)).1 = Throw (JStr "boom") /\
  tick_notified s (loop agent writes_nothing s).2 =
    ["resetting VM next tick."; "boom"; EmptyString] /\
  ~ notifies_once (JStr "boom") s (loop agent writes_nothing s).2.
Proof.
  repeat split; try reflexivity.
  intros (msg & text & Hone & _). vm_compute in Hone. discriminate.
Qed.

(** C9 as stated fails: the lines logged for a caught exception are the
    three below, and none of them contains the text [resetting next tick];
    the fixed line reads [resetting VM next tick.] *)
Lemma fixed_line_reads_otherwise :
  let s := initial (example_host 1000) in
  let agent := agent_throwing setup (JStr "boom") in
  pause s = false /\
  (try_block agent writes_nothing (swept s)).1 = Throw (JStr "boom") /\
  tick_lines s (loop agent writes_nothing s).2 =
    [[JStr "resetting VM next tick."]; [JStr "boom"]; [JUndefined]] /\
  contains "resetting next tick" "resetting VM next tick." = false /\
  ~ logs_containing "resetting next tick" s (loop agent writes_nothing s).2.
Proof.
  assert (Hlines : tick_lines (initial (example_host 1000))
            (loop (agent_throwing setup (JStr "boom")) writes_nothing
               (initial (example_host 1000))).2
          = [[JStr "resetting VM next tick."]; [JStr "boom"]; [JUndefined]])
    by (vm_compute; reflexivity).
  split_and!; [reflexivity | reflexivity | exact Hlines | reflexivity |].
  intros (line & Hin & Hsub).
  rewrite Hlines in Hin.
  repeat (apply elem_of_cons in Hin as [->|Hin];
          [vm_compute in Hsub; discriminate|]).
  by apply elem_of_nil in Hin.
Qed.

(** ** The theorems at concrete inputs *)

Lemma paused_tick_does_nothing_witness :
  pause example_paused = true /\
  loop agent_well_behaved writes_nothing example_paused
  = (Normal tt, example_paused).
Proof.
  split; [reflexivity |].
  apply (paused_tick_does_nothing agent_well_behaved writes_nothing
           example_paused).
  reflexivity.
Defined.


Lemma budget_gate_witness :
  let s := initial (example_host 499) in
  let s' := (loop agent_well_behaved writes_nothing s).2 in
  (pause s = false /\ wasm_module s = None /\ (bucket (Game_cpu s) < 500)%Z) /\
  (loop agent_well_behaved writes_nothing s).1 = Normal tt /\
  console s' = console s ++
    [[JStr ("we are running out of time, pausing compile!"
            +:+ cpu_json (Game_cpu s))]] /\
  trace s' = trace s /\ require_cache s' = require_cache s /\
  instances s' = instances s /\ notified s' = notified s /\
  wasm_module s' = None.
Proof.
  split; [repeat split; reflexivity |].
  apply (budget_gate agent_well_behaved writes_nothing
           (initial (example_host 499)));
    reflexivity.
Defined.

Lemma steady_state_witness :
  let s := example_loaded in
  let s' := (loop agent_well_behaved writes_nothing s).2 in
  (pause s = false /\ wasm_module s = Some 0%nat) /\
  (exists r, tick_events s s' = [Call module_loop 0%nat r]) /\
  require_cache s' =
    require_cache
      (module_ran writes_nothing (ReqCall module_loop 0%nat) (swept s)) /\
  instances s' = instances s.
Proof.
  split; [repeat split; reflexivity |].
  apply (steady_state agent_well_behaved writes_nothing example_loaded 0%nat);
    reflexivity.
Defined.

Lemma cold_start_sequence_witness :
  let s := initial (example_host 1000) in
  let s' := (loop agent_well_behaved writes_nothing s).2 in
  (pause s = false /\ wasm_module s = None /\
   (500 <= bucket (Game_cpu s))%Z /\
   forallb returned (tick_events s s') = true) /\
  (loop agent_well_behaved writes_nothing s).1 = Normal tt /\
  tick_events s s' =
    cold_start (bool_decide (is_Some (require_cache s !! MODULE_NAME)))
      (instances s) None None None /\
  wasm_module s' = Some (instances s) /\
  ((forall c st,
      host_require_cache (writes_nothing (ReqCall c (instances s)) st) =
      require_cache st) ->
   require_cache s' !! MODULE_NAME = Some (instances s)).
Proof.
  split; [repeat split; try reflexivity; vm_compute; congruence |].
  apply (cold_start_sequence agent_well_behaved writes_nothing
           (initial (example_host 1000)));
    try reflexivity.
  vm_compute. congruence.
Defined.

Lemma caught_exception_notified_witness :
  let s := initial (example_host 1000) in
  let e := Error_object "boom" in
  let agent := agent_throwing setup e in
  (pause s = false /\
   (try_block agent writes_nothing (swept s)).1 = Throw e /\
   get_stack e s = (Normal (JStr "Error: boom at setup"), s) /\
   ToString e = inl "Error: boom" /\
   Array_join " " [JStr "Error: boom at setup"] = inl "Error: boom at setup") /\
  tick_notified s (loop agent writes_nothing s).2 =
    ["resetting VM next tick."; "Error: boom"; "Error: boom at setup"].
Proof.
  split; [repeat split; reflexivity |].
  apply (caught_exception_notified (agent_throwing setup (Error_object "boom"))
           writes_nothing (initial (example_host 1000)) (Error_object "boom")
           (JStr "Error: boom at setup")); reflexivity.
Defined.

Lemma caught_exception_logged_witness :
  let s := example_loaded in
  let agent := agent_throwing module_loop JNull in
  (pause s = false /\
   (try_block agent writes_nothing (swept s)).1 = Throw JNull) /\
  exists rest,
    tick_lines s (loop agent writes_nothing s).2 =
      [JStr "resetting VM next tick."] :: rest.
Proof.
  split; [repeat split; reflexivity |].
  apply (caught_exception_logged (agent_throwing module_loop JNull)
           writes_nothing example_loaded JNull); reflexivity.
Defined.

Lemma pause_stays_false_witness :
  reachable agent_well_behaved writes_nothing example_loaded /\
  pause example_loaded = false.
Proof.
  assert (Hreach : reachable agent_well_behaved writes_nothing example_loaded)
    by (unfold example_loaded; apply reachable_tick, reachable_initial).
  split; [exact Hreach |].
  apply (pause_stays_false agent_well_behaved writes_nothing example_loaded
           Hreach).
Defined.

(** * Further properties of the driver *)

(** ** The clean-up as a whole *)

(** Visiting every key of the mapping keeps exactly the records whose key is
    a property of the live units, own or inherited. *)
Lemma sweep_all_keys live (memory : gmap string string) :
  sweep live (map_to_list memory).*1 memory
  = filter (fun kv => is_Some (live !! kv.1) \/ kv.1 ∈ Object_prototype_names)
      memory.
Proof.
  apply map_eq. intros i. rewrite sweep_lookup, map_lookup_filter.
  destruct (memory !! i) as [v|] eqn:Hv; simpl.
  - assert (Hin : i ∈ (map_to_list memory).*1).
    { apply list_elem_of_fmap. exists (i, v).
      split; [done | by apply elem_of_map_to_list]. }
    destruct (missing live i) eqn:Hmiss.
    + rewrite decide_True by done.
      apply missing_iff in Hmiss as [Hnone Hname].
      rewrite option_guard_False; [done |].
      simpl. rewrite Hnone. intros [[? ?]|?]; done.
    + rewrite decide_False by (intros [_ ?]; congruence).
      rewrite option_guard_True; [done |]. simpl.
      destruct (live !! i) as [c|] eqn:Hl; [left; by eexists |].
      right. destruct (decide (i ∈ Object_prototype_names)); [done |].
      exfalso. assert (missing live i = true) by by apply missing_iff.
      congruence.
  - by destruct (decide _).
Qed.

Section MoreFacts.

Variable agent : Request -> State -> option JsVal.
Variable writes : Request -> State -> Host.

(** X1.  The clean-up loop returns normally and changes nothing but the
    memory mapping, which becomes the old one restricted to the identifiers
    of live units and to the property names of [Object.prototype]: those
    records are kept as they were, all others are gone, and no key is
    added. *)
Theorem clean_up_keeps_the_living s :
  clean_up_dead_creeps s =
  (Normal tt,
   set_Memory_creeps
     (filter (fun kv => is_Some (Game_creeps s !! kv.1) \/
                        kv.1 ∈ Object_prototype_names)
        (Memory_creeps s))
     s).
Proof.
  rewrite clean_up_dead_creeps_run. unfold swept. by rewrite sweep_all_keys.
Qed.

(** X2.  The clean-up is idempotent: run again on the state it left, it
    finds nothing to delete. *)
Theorem clean_up_twice s :
  clean_up_dead_creeps (clean_up_dead_creeps s).2 =
  (Normal tt, (clean_up_dead_creeps s).2).
Proof.
  rewrite !clean_up_dead_creeps_run. cbn [snd]. f_equal.
  unfold swept. simpl.
  set (kept := sweep (Game_creeps s) (map_to_list (Memory_creeps s)).*1
                 (Memory_creeps s)).
  assert (Hidem : sweep (Game_creeps s) (map_to_list kept).*1 kept = kept).
  { subst kept. rewrite !sweep_all_keys.
    apply map_eq. intros i. rewrite !map_lookup_filter.
    destruct (Memory_creeps s !! i) as [v|]; simpl; [|done].
    repeat (case_guard; simpl); done. }
  rewrite Hidem. reflexivity.
Qed.

(** X18.  A record whose identifier is a property name of
    [Object.prototype], such as [toString] or [constructor], survives the
    clean-up even when no live unit has that name. *)
Theorem inherited_name_is_kept s i v :
  i ∈ Object_prototype_names ->
  Memory_creeps s !! i = Some v ->
  Memory_creeps (clean_up_dead_creeps s).2 !! i = Some v.
Proof.
  intros Hname Hv. rewrite clean_up_dead_creeps_run. simpl.
  rewrite sweep_lookup.
  rewrite decide_False; [done |]. intros [_ [_ ?]%missing_iff]. done.
Qed.

(** X4.  With a module loaded, its [loop] is called after the clean-up: the
    state it runs in is the swept one, and the call is the tick's only
    event. *)
Theorem module_loop_sees_swept_memory s m :
  pause s = false -> wasm_module s = Some m ->
  tick_events s (loop agent writes s).2 =
    [Call module_loop m (agent (ReqCall module_loop m) (swept s))].
Proof.
  intros Hp Hw. rewrite (loop_unpaused agent writes s Hp). run. rewrite Hw.
  paths; handled; by new_events.
Qed.

(** X5.  A tick sends a notification exactly when a load or a capability
    threw in it. *)
Theorem notified_iff_thrown s :
  let s' := (loop agent writes s).2 in
  tick_notified s s' = [] <-> forallb returned (tick_events s s') = true.
Proof.
  destruct (pause s) eqn:Hp.
  - rewrite (loop_paused agent writes s Hp). by new_events.
  - rewrite (loop_unpaused agent writes s Hp). run.
    paths; handled; new_events; split; intros; done.
Qed.

(** X6.  A throw ends the tick's dealings with the module: every event of a
    tick but the last has returned. *)
Theorem throw_ends_the_tick s :
  forallb returned (removelast (tick_events s (loop agent writes s).2)) = true.
Proof.
  destruct (pause s) eqn:Hp.
  - rewrite (loop_paused agent writes s Hp). by new_events.
  - rewrite (loop_unpaused agent writes s Hp). run.
    paths; handled; by new_events.
Qed.

(** X7.  The driver's [require] is never served from the module cache: the
    eviction before it makes every load a fresh one. *)
Theorem never_served_from_cache s :
  forallb (fun ev => match ev with Fetch _ _ => false | _ => true end)
    (tick_events s (loop agent writes s).2) = true.
Proof.
  destruct (pause s) eqn:Hp.
  - rewrite (loop_paused agent writes s Hp). by new_events.
  - rewrite (loop_unpaused agent writes s Hp). run.
    paths; no_fetch; handled; by new_events.
Qed.

(** X8.  No capability is called twice in one tick. *)
Theorem each_capability_at_most_once s c :
  length (List.filter
            (fun ev => match ev with
                       | Call c' _ _ => capability_eqb c c'
                       | _ => false
                       end)
            (tick_events s (loop agent writes s).2)) <= 1.
Proof.
  destruct (pause s) eqn:Hp.
  - rewrite (loop_paused agent writes s Hp). new_events. lia.
  - rewrite (loop_unpaused agent writes s Hp). run.
    paths; handled; new_events; destruct c; simpl; lia.
Qed.

(** X9.  In an unpaused tick that has a module or the budget to load one, if
    nothing throws then the last thing the tick does is a call of the
    module's [loop] that returns, and the instance it called is the one
    [wasm_module] holds afterwards: a freshly loaded module does its first
    tick of work at once, and a loaded one is kept. *)
Theorem work_is_done_in_the_same_tick s :
  pause s = false ->
  is_Some (wasm_module s) \/ (500 <= bucket (Game_cpu s))%Z ->
  forallb returned (tick_events s (loop agent writes s).2) = true ->
  exists m,
    last (tick_events s (loop agent writes s).2)
      = Some (Call module_loop m None) /\
    wasm_module (loop agent writes s).2 = Some m.
Proof.
  intros Hp Hready. rewrite (loop_unpaused agent writes s Hp). run.
  destruct (wasm_module s) as [m0|] eqn:Hw.
  - paths; handled; new_events; intros Hret; try discriminate. by exists m0.
  - destruct Hready as [[? ?]|Hb]; [discriminate|].
    simpl. apply Z.ltb_ge in Hb. rewrite Hb. simpl.
    paths; handled; new_events; intros Hret; try discriminate; by eexists.
Qed.

(** X10.  When the [try] block of an unpaused tick throws a value whose
    [stack] can be read and which, like its [stack], can be converted to a
    string, the tick returns normally, [wasm_module] is unset and [pause] is
    false afterwards, and exactly three lines were logged: the fixed line,
    the error, its [stack]. *)
Theorem caught_exception_recovery s e stack text stack_text :
  pause s = false ->
  (try_block agent writes (swept s)).1 = Throw e ->
  get_stack e s = (Normal stack, s) ->
  ToString e = inl text ->
  Array_join " " [stack] = inl stack_text ->
  let s' := (loop agent writes s).2 in
  (loop agent writes s).1 = Normal tt /\ wasm_module s' = None /\
  pause s' = false /\
  tick_lines s s' = [[JStr "resetting VM next tick."]; [e]; [stack]].
Proof.
  intros Hp He Hst Ht Hs. rewrite (loop_catches agent writes s e Hp He).
  unfold tick_lines.
  pose proof (try_block_throw_console agent writes (swept s) e He) as Hn.
  simpl in Hn.
  destruct (try_block agent writes (swept s)) as [c s1]. simpl in *.
  clear He. revert Hst Ht Hs. run_handler.
  intros; all_paths; rewrite Hn; split_and!; try done; by new_events.
Qed.

(** X11.  When the [try] block of an unpaused tick throws [undefined] or
    [null], the handler stops at [error.stack]: the tick ends with a
    [TypeError], [wasm_module] is what the [try] block left, two lines were
    logged and two notifications sent, the second one empty. *)
Theorem nullish_exception_leaves_tick s e :
  pause s = false ->
  (try_block agent writes (swept s)).1 = Throw e ->
  has_properties e = false ->
  let s' := (loop agent writes s).2 in
  (loop agent writes s).1 = Throw (TypeError_cannot_read_stack e) /\
  wasm_module s' = wasm_module (try_block agent writes (swept s)).2 /\
  tick_lines s s' = [[JStr "resetting VM next tick."]; [e]] /\
  tick_notified s s' = ["resetting VM next tick."; EmptyString].
Proof.
  intros Hp He Hv. rewrite (loop_catches agent writes s e Hp He).
  unfold tick_lines, tick_notified.
  pose proof (try_block_throw_console agent writes (swept s) e He) as Hc.
  pose proof (try_block_notified agent writes (swept s)) as Hn.
  simpl in Hc, Hn.
  destruct (try_block agent writes (swept s)) as [c s1]. simpl in *.
  destruct e; try discriminate; run_handler;
    rewrite Hc, Hn; by new_events.
Qed.

(** X17.  When the [try] block of an unpaused tick throws a value that
    cannot be converted to a string (a symbol, an object without a usable
    [toString]), the handler stops in its second [console_error], at
    [join]: the tick ends with what the conversion threw, [wasm_module] is
    what the [try] block left, two lines were logged and one notification
    sent. *)
Theorem unprintable_exception_leaves_tick s e thrown :
  pause s = false ->
  (try_block agent writes (swept s)).1 = Throw e ->
  Array_join " " [e] = inr thrown ->
  let s' := (loop agent writes s).2 in
  (loop agent writes s).1 = Throw thrown /\
  wasm_module s' = wasm_module (try_block agent writes (swept s)).2 /\
  tick_lines s s' = [[JStr "resetting VM next tick."]; [e]] /\
  tick_notified s s' = ["resetting VM next tick."].
Proof.
  intros Hp He Hv. rewrite (loop_catches agent writes s e Hp He).
  unfold tick_lines, tick_notified.
  pose proof (try_block_throw_console agent writes (swept s) e He) as Hc.
  pose proof (try_block_notified agent writes (swept s)) as Hn.
  simpl in Hc, Hn.
  destruct (try_block agent writes (swept s)) as [c s1]. simpl in *.
  clear He. revert Hv. run_handler.
  intros; all_paths; rewrite Hc, Hn; by new_events.
Qed.

(** X13.  When the load fails in a tick, no capability is called in that
    tick and [wasm_module] is unset afterwards whatever was thrown; and the
    driver caches nothing: when the loading code did not itself write the
    module's cache entry, the cache has no entry for the module. *)
Theorem failed_load_leaves_nothing s :
  existsb (fun ev => match ev with LoadFailed _ _ => true | _ => false end)
    (tick_events s (loop agent writes s).2) = true ->
  wasm_module (loop agent writes s).2 = None /\
  forallb (fun ev => match ev with Call _ _ _ => false | _ => true end)
    (tick_events s (loop agent writes s).2) = true /\
  ((forall st,
      host_require_cache (writes (ReqLoad MODULE_NAME) st) !! MODULE_NAME =
      require_cache st !! MODULE_NAME) ->
   require_cache (loop agent writes s).2 !! MODULE_NAME = None).
Proof.
  destruct (pause s) eqn:Hp.
  { rewrite (loop_paused agent writes s Hp). new_events. discriminate. }
  rewrite (loop_unpaused agent writes s Hp). run.
  paths; no_fetch; handled; new_events; intros Hin; try discriminate;
    split_and!; try done; intros Hkeep; unfold module_ran; simpl;
    rewrite Hkeep; simpl; rewrite ?lookup_delete_eq; try done;
    by apply eq_None_not_Some.
Qed.

(** X14.  Failure, then retry: after a tick whose [try] block threw a value
    the handler could handle to the end, the next tick, given a gauge of 500
    or more and no further throw, runs the whole cold-start sequence on a new
    instance and keeps it. *)
Theorem failure_then_retry s e stack text stack_text h :
  pause s = false ->
  (try_block agent writes (swept s)).1 = Throw e ->
  get_stack e s = (Normal stack, s) ->
  ToString e = inl text ->
  Array_join " " [stack] = inl stack_text ->
  (500 <= bucket (host_Game_cpu h))%Z ->
  let s1 := host_supplies h (loop agent writes s).2 in
  let s2 := (loop agent writes s1).2 in
  forallb returned (tick_events s1 s2) = true ->
  (loop agent writes s1).1 = Normal tt /\
  tick_events s1 s2 =
    cold_start (bool_decide (is_Some (host_require_cache h !! MODULE_NAME)))
      (instances s1) None None None /\
  wasm_module s2 = Some (instances s1).
Proof.
  intros Hp He Hst Ht Hs Hb s1 s2. subst s2.
  destruct (loop_recovers agent writes s e stack text stack_text
              Hp He Hst Ht Hs) as (_ & Hw & Hp1).
  assert (Hp1' : pause s1 = false) by done.
  assert (Hw1 : wasm_module s1 = None) by done.
  assert (Hb1 : (bucket (Game_cpu s1) <? 500)%Z = false) by by apply Z.ltb_ge.
  assert (Hc1 : require_cache s1 = host_require_cache h) by done.
  rewrite <- Hc1. clearbody s1. clear Hb Hc1 Hw Hp1 He Hp Hst.
  rewrite (loop_unpaused agent writes s1 Hp1'). unfold cold_start. run.
  rewrite Hw1. simpl. rewrite Hb1. simpl.
  destruct (decide (is_Some (require_cache s1 !! MODULE_NAME))) as [Hc|Hc].
  - rewrite (bool_decide_eq_true_2 _ Hc). simpl. rewrite lookup_delete_eq.
    paths; handled; new_events; intros Hret; try discriminate; done.
  - rewrite (bool_decide_eq_false_2 _ Hc). simpl.
    apply eq_None_not_Some in Hc. rewrite Hc.
    paths; handled; new_events; intros Hret; try discriminate; done.
Qed.

Lemma ticks_trace hosts s m :
  (forall st, agent (ReqCall module_loop m) st = None) ->
  pause s = false -> wasm_module s = Some m ->
  trace (ticks agent writes hosts s) =
    trace s ++ repeat (Call module_loop m None) (length hosts) /\
  wasm_module (ticks agent writes hosts s) = Some m.
Proof.
  intros Hok. revert s. induction hosts as [|h hosts IH]; intros s Hp Hw.
  - simpl. by rewrite app_nil_r.
  - cbn [ticks length repeat].
    assert (Hstep : trace (loop agent writes (host_supplies h s)).2 =
                      trace s ++ [Call module_loop m None] /\
                    wasm_module (loop agent writes (host_supplies h s)).2
                      = Some m /\
                    pause (loop agent writes (host_supplies h s)).2 = false).
    { rewrite (loop_unpaused agent writes (host_supplies h s)) by done.
      run. rewrite Hw. rewrite Hok. simpl. by rewrite Hw, Hp. }
    destruct Hstep as (Ht & Hw' & Hp').
    destruct (IH _ Hp' Hw') as [IHt IHw].
    rewrite IHt, Ht, <- app_assoc. done.
Qed.

(** X15.  Once a module is loaded whose [loop] never throws, every later
    tick calls that [loop] exactly once and nothing else, and the instance
    stays loaded, whatever the host supplies in between, a gauge below 500
    included. *)
Theorem steady_state_lasts hosts s m :
  (forall st, agent (ReqCall module_loop m) st = None) ->
  pause s = false -> wasm_module s = Some m ->
  let s' := ticks agent writes hosts s in
  tick_events s s' = repeat (Call module_loop m None) (length hosts) /\
  wasm_module s' = Some m.
Proof.
  intros Hok Hp Hw s'. subst s'. unfold tick_events.
  destruct (ticks_trace hosts s m Hok Hp Hw) as [-> ->].
  by rewrite drop_app_length.
Qed.

End MoreFacts.

(** ** The further properties at concrete inputs *)

Lemma inherited_name_is_kept_witness :
  let s := initial example_host_toString in
  ("toString" ∈ Object_prototype_names /\
   Memory_creeps s !! "toString" = Some "{}") /\
  Memory_creeps (clean_up_dead_creeps s).2 !! "toString" = Some "{}".
Proof.
  assert (Hname : "toString" ∈ Object_prototype_names)
    by (apply (bool_decide_unpack _); vm_compute; exact I).
  split; [split; [exact Hname | reflexivity] |].
  apply (inherited_name_is_kept (initial example_host_toString)
           "toString" "{}" Hname).
  reflexivity.
Defined.

Lemma module_loop_sees_swept_memory_witness :
  let s := example_loaded in
  (pause s = false /\ wasm_module s = Some 0%nat) /\
  tick_events s (loop agent_well_behaved writes_record_of_b s).2 =
    [Call module_loop 0%nat
       (agent_well_behaved (ReqCall module_loop 0%nat) (swept s))].
Proof.
  split; [split; reflexivity |].
  apply (module_loop_sees_swept_memory agent_well_behaved writes_record_of_b
           example_loaded 0%nat);
    reflexivity.
Defined.

Lemma work_is_done_in_the_same_tick_witness :
  let s := initial (example_host 500) in
  let s' := (loop agent_well_behaved writes_nothing s).2 in
  (pause s = false /\ (500 <= bucket (Game_cpu s))%Z /\
   forallb returned (tick_events s s') = true) /\
  exists m,
    last (tick_events s s') = Some (Call module_loop m None) /\
    wasm_module s' = Some m.
Proof.
  split; [repeat split; try reflexivity; vm_compute; congruence |].
  apply (work_is_done_in_the_same_tick agent_well_behaved writes_nothing
           (initial (example_host 500))).
  - reflexivity.
  - right. vm_compute. congruence.
  - reflexivity.
Defined.

Lemma caught_exception_recovery_witness :
  let s := initial (example_host 1000) in
  let e := Error_object "boom" in
  let agent := agent_throwing setup e in
  (pause s = false /\
   (try_block agent writes_nothing (swept s)).1 = Throw e /\
   get_stack e s = (Normal (JStr "Error: boom at setup"), s) /\
   ToString e = inl "Error: boom" /\
   Array_join " " [JStr "Error: boom at setup"] = inl "Error: boom at setup") /\
  (loop agent writes_nothing s).1 = Normal tt /\
  wasm_module (loop agent writes_nothing s).2 = None /\
  pause (loop agent writes_nothing s).2 = false /\
  tick_lines s (loop agent writes_nothing s).2 =
    [[JStr "resetting VM next tick."]; [e]; [JStr "Error: boom at setup"]].
Proof.
  split; [repeat split; reflexivity |].
  apply (caught_exception_recovery
           (agent_throwing setup (Error_object "boom")) writes_nothing
           (initial (example_host 1000)) (Error_object "boom")
           (JStr "Error: boom at setup") "Error: boom" "Error: boom at setup");
    reflexivity.
Defined.

Lemma nullish_exception_leaves_tick_witness :
  let s := initial (example_host 1000) in
  let agent := agent_throwing setup JUndefined in
  (pause s = false /\
   (try_block agent writes_nothing (swept s)).1 = Throw JUndefined /\
   has_properties JUndefined = false) /\
  (loop agent writes_nothing s).1
    = Throw (TypeError_cannot_read_stack JUndefined) /\
  wasm_module (loop agent writes_nothing s).2
    = wasm_module (try_block agent writes_nothing (swept s)).2 /\
  tick_lines s (loop agent writes_nothing s).2 =
    [[JStr "resetting VM next tick."]; [JUndefined]] /\
  tick_notified s (loop agent writes_nothing s).2 =
    ["resetting VM next tick."; EmptyString].
Proof.
  split; [repeat split; reflexivity |].
  apply (nullish_exception_leaves_tick (agent_throwing setup JUndefined)
           writes_nothing (initial (example_host 1000)) JUndefined);
    reflexivity.
Defined.

Lemma unprintable_exception_leaves_tick_witness :
  let s := initial (example_host 1000) in
  let e := JSymbol "oops" in
  let thrown := TypeError "Cannot convert a Symbol value to a string" in
  let agent := agent_throwing setup e in
  (pause s = false /\
   (try_block agent writes_nothing (swept s)).1 = Throw e /\
   Array_join " " [e] = inr thrown) /\
  (loop agent writes_nothing s).1 = Throw thrown /\
  wasm_module (loop agent writes_nothing s).2
    = wasm_module (try_block agent writes_nothing (swept s)).2 /\
  tick_lines s (loop agent writes_nothing s).2 =
    [[JStr "resetting VM next tick."]; [e]] /\
  tick_notified s (loop agent writes_nothing s).2 =
    ["resetting VM next tick."].
Proof.
  split; [repeat split; reflexivity |].
  apply (unprintable_exception_leaves_tick
           (agent_throwing setup (JSymbol "oops")) writes_nothing
           (initial (example_host 1000)) (JSymbol "oops")
           (TypeError "Cannot convert a Symbol value to a string"));
    reflexivity.
Defined.

Lemma failed_load_leaves_nothing_witness :
  let s := initial (example_host 1000) in
  let agent := agent_failing_load JNull in
  existsb (fun ev => match ev with LoadFailed _ _ => true | _ => false end)
    (tick_events s (loop agent writes_nothing s).2) = true /\
  wasm_module (loop agent writes_nothing s).2 = None /\
  forallb (fun ev => match ev with Call _ _ _ => false | _ => true end)
    (tick_events s (loop agent writes_nothing s).2) = true /\
  ((forall st,
      host_require_cache (writes_nothing (ReqLoad MODULE_NAME) st)
        !! MODULE_NAME = require_cache st !! MODULE_NAME) ->
   require_cache (loop agent writes_nothing s).2 !! MODULE_NAME = None).
Proof.
  split; [reflexivity |].
  apply (failed_load_leaves_nothing (agent_failing_load JNull) writes_nothing
           (initial (example_host 1000))).
  reflexivity.
Defined.

Lemma failure_then_retry_witness :
  let s := initial (example_host 1000) in
  let agent := agent_first_build_broken in
  let h := example_host 600 in
  let s1 := host_supplies h (loop agent writes_nothing s).2 in
  let s2 := (loop agent writes_nothing s1).2 in
  (pause s = false /\
   (try_block agent writes_nothing (swept s)).1 = Throw (JStr "boom") /\
   get_stack (JStr "boom") s = (Normal JUndefined, s) /\
   ToString (JStr "boom") = inl "boom" /\
   Array_join " " [JUndefined] = inl EmptyString /\
   (500 <= bucket (host_Game_cpu h))%Z /\
   forallb returned (tick_events s1 s2) = true) /\
  (loop agent writes_nothing s1).1 = Normal tt /\
  tick_events s1 s2 =
    cold_start (bool_decide (is_Some (host_require_cache h !! MODULE_NAME)))
      (instances s1) None None None /\
  wasm_module s2 = Some (instances s1).
Proof.
  split; [repeat split; try reflexivity; vm_compute; congruence |].
  apply (failure_then_retry agent_first_build_broken writes_nothing
           (initial (example_host 1000)) (JStr "boom") JUndefined
           "boom" EmptyString (example_host 600));
    try reflexivity.
  vm_compute. congruence.
Defined.

Lemma steady_state_lasts_witness :
  let s := example_loaded in
  let hosts := [example_host 0; example_host 1000; example_host 499] in
  let s' := ticks agent_well_behaved writes_record_of_b hosts s in
  ((forall st, agent_well_behaved (ReqCall module_loop 0%nat) st = None) /\
   pause s = false /\ wasm_module s = Some 0%nat) /\
  tick_events s s' = repeat (Call module_loop 0%nat None) (length hosts) /\
  wasm_module s' = Some 0%nat.
Proof.
  split; [repeat split; reflexivity |].
  apply (steady_state_lasts agent_well_behaved writes_record_of_b
           [example_host 0; example_host 1000; example_host 499]
           example_loaded 0%nat); [intros st | |]; reflexivity.
Defined.

Lemma quiet_ticks_keep_initialized_witness :
  reachable_quietly agent_well_behaved writes_nothing example_loaded /\
  loaded_is_initialized example_loaded.
Proof.
  assert (Hquiet :
            reachable_quietly agent_well_behaved writes_nothing example_loaded).
  { apply (quietly_tick agent_well_behaved writes_nothing
             (initial (example_host 1000))).
    - apply quietly_initial.
    - vm_compute. reflexivity. }
  split; [exact Hquiet |].
  apply (quiet_ticks_keep_initialized agent_well_behaved writes_nothing
           example_loaded Hquiet).
Defined.
